(** * Start-up configuration merge of the cert-manager controller

    A shallow embedding of [cmd/controller/app/start.go]: the command
    constructor [newServerCommand], its executable action [RunE] and the
    merge coordinator [loadConfigFromFile], followed by the properties of
    the defaults / file / flags precedence protocol.

    The Go code works on one live [ControllerConfiguration] through a
    pointer, activates process-wide facilities through a callback and
    calls into cobra, the file loader and the run loop.  The embedding
    threads an explicit [World] through a small state-and-error monad and
    takes the collaborators whose code lives in other packages as the
    fields of an environment record. *)

From Stdlib Require Import Ascii.
From stdpp Require Import gmap strings list.

Set Default Proof Using "Type".

(** ** Go errors and the two [fmt.Errorf] shapes used by the file *)

Module Go.

(** An [error] is either a plain message ([errors.New], [fmt.Errorf]
    without [%w]) or a message that wraps a cause ([fmt.Errorf] with
    [%w]). *)
Inductive error : Type :=
| errorString (s : string)
| wrapError (msg : string) (err : error).

(** [err.Error()] *)
Definition Error (e : error) : string :=
  match e with
  | errorString s => s
  | wrapError msg _ => msg
  end.

(** [errors.Unwrap(err)] *)
Definition Unwrap (e : error) : option error :=
  match e with
  | errorString _ => None
  | wrapError _ err => Some err
  end.

(** [fmt.Errorf(prefix + "%w", err)] *)
Definition Errorf_w (prefix : string) (err : error) : error :=
  wrapError (prefix +:+ Error err) err.

(** The outcome of a Go call of type [(A, error)]. *)
Inductive result (A : Type) : Type :=
| Ok (a : A)
| Err (e : error).
Global Arguments Ok {A} a.
Global Arguments Err {A} e.

(** [strings.HasPrefix(s, prefix)] *)
Fixpoint HasPrefix (s prefix : string) {struct prefix} : bool :=
  match prefix, s with
  | EmptyString, _ => true
  | String c p, String d s' => if Ascii.eqb c d then HasPrefix s' p else false
  | String _ _, EmptyString => false
  end.

(** [strings.Contains(s, substr)] *)
Fixpoint Contains (s substr : string) : bool :=
  HasPrefix s substr ||
  match s with
  | EmptyString => false
  | String _ s' => Contains s' substr
  end.

End Go.
Import Go.

(** ** The data model *)

(** The [ControllerConfiguration] struct is declared in
    [internal/apis/config/controller]; here it is [gmap string Value], the
    finite map from the names of its fields to their values, over any
    type [Value] of values. *)

(** [controllerconfigfile.ControllerConfigFile]: the holder the loader
    decodes into. *)
Record ControllerConfigFile (Value : Type) : Type :=
  { Config : gmap string Value }.
Global Arguments Config {Value} _.

(** What happens during a run, in the order in which it happens. *)
Inductive Event (Value : Type) : Type :=
| EvCallback (cfg : gmap string Value)   (* fn(), with the live object it saw *)
| EvAbs (path : string)                  (* filepath.Abs *)
| EvNewLoader (abs : string)             (* configfile.NewConfigurationFSLoader *)
| EvLoad (abs : string)                  (* loader.Load: the file is read *)
| EvDeepCopyInto                         (* the overlay of the live object *)
| EvFind (args : list string)            (* cmd.Root().Find *)
| EvParseFlags (args : list string)      (* cmd.ParseFlags *)
| EvRun (cfg : gmap string Value)        (* the run loop is entered *)
| EvLogError (msg : string) (err : error)
| EvNewFlags                             (* options.NewControllerFlags *)
| EvAddFlags                             (* controllerFlags.AddFlags *)
| EvAddConfigFlags                       (* options.AddConfigFlags *)
| EvSetArgs (args : list string)         (* cmd.SetArgs *)
| EvExit (code : Z).                     (* os.Exit *)
Global Arguments EvCallback {Value} cfg.
Global Arguments EvAbs {Value} path.
Global Arguments EvNewLoader {Value} abs.
Global Arguments EvLoad {Value} abs.
Global Arguments EvDeepCopyInto {Value}.
Global Arguments EvFind {Value} args.
Global Arguments EvParseFlags {Value} args.
Global Arguments EvRun {Value} cfg.
Global Arguments EvLogError {Value} msg err.
Global Arguments EvNewFlags {Value}.
Global Arguments EvAddFlags {Value}.
Global Arguments EvAddConfigFlags {Value}.
Global Arguments EvSetArgs {Value} args.
Global Arguments EvExit {Value} code.

(** The mutable state a run works on:
    - [live]: the object behind [cfg] / [controllerConfig], which is also
      the object the flags of the command are bound to;
    - [flagsConfig]: [controllerFlags.Config], the target of [--config];
    - [active]: the process-wide state the callback activates (logging,
      feature gates);
    - [trace]: the events so far. *)
Record World (Value Global : Type) : Type :=
  { live : gmap string Value;
    flagsConfig : string;
    active : Global;
    trace : list (Event Value) }.
Global Arguments live {Value Global} _.
Global Arguments flagsConfig {Value Global} _.
Global Arguments active {Value Global} _.
Global Arguments trace {Value Global} _.
Global Arguments Build_World {Value Global} _ _ _ _.

(** Modelled from the spec: the flag bindings that [options.AddConfigFlags]
    and [ControllerFlags.AddFlags] register (package
    [controller-binary/app/options], outside these sources).  A binding
    associates a named flag with one field of the configuration, [decode]
    being the parsing of the flag's text into the field's value; the
    dedicated [--config] flag is bound to [ControllerFlags.Config] and is
    not part of the configuration. *)
Inductive Binding (Value : Type) : Type :=
| FieldFlag (field : string) (decode : string → option Value)
| ConfigPathFlag.
Global Arguments FieldFlag {Value} field decode.
Global Arguments ConfigPathFlag {Value}.

(** [func() error] capturing the live object by reference: it reads the
    object as it is when called and acts on the process-wide state. *)
Abbreviation Callback Value Global :=
  (gmap string Value → Global → Global * option error) (only parsing).

(** The collaborators of [start.go]. *)
Record Env (Value Global Loader : Type) : Type :=
  { (* options.NewControllerFlags(): the initial ControllerFlags.Config *)
    NewControllerFlags : string;
    (* options.NewControllerConfiguration() *)
    NewControllerConfiguration : result (gmap string Value);
    (* the flag set of the command after AddFlags and AddConfigFlags *)
    formal : string → option (Binding Value);
    (* filepath.Abs, for the working directory of the process *)
    filepath_Abs : string → result string;
    (* configfile.NewConfigurationFSLoader(nil, path) *)
    NewConfigurationFSLoader : string → result Loader;
    (* controllerconfigfile.New() *)
    controllerconfigfile_New : ControllerConfigFile Value;
    (* loader.Load(into), for the file system of the process *)
    Load : Loader → ControllerConfigFile Value → result (ControllerConfigFile Value);
    (* cmd.Root().Find(args): the arguments left for the command *)
    Find : list string → result (list string);
    (* logf.ValidateAndApply(&controllerConfig.Logging) *)
    ValidateAndApply : gmap string Value → Global → Global * option error;
    (* utilfeature.DefaultMutableFeatureGate.SetFromMap(controllerConfig.FeatureGates) *)
    SetFromMap : gmap string Value → Global → Global * option error;
    (* Run(cfg, ctx.Done()) *)
    Run : gmap string Value → Global → Global * option error }.
Global Arguments NewControllerFlags {Value Global Loader} _.
Global Arguments NewControllerConfiguration {Value Global Loader} _.
Global Arguments formal {Value Global Loader} _ _.
Global Arguments filepath_Abs {Value Global Loader} _ _.
Global Arguments NewConfigurationFSLoader {Value Global Loader} _ _.
Global Arguments controllerconfigfile_New {Value Global Loader} _.
Global Arguments Load {Value Global Loader} _ _ _.
Global Arguments Find {Value Global Loader} _ _.
Global Arguments ValidateAndApply {Value Global Loader} _ _ _.
Global Arguments SetFromMap {Value Global Loader} _ _ _.
Global Arguments Run {Value Global Loader} _ _ _.

(** ** The state-and-error monad of a run *)

Section Monad.
Context {Value Global : Type}.

Definition M (A : Type) : Type :=
  World Value Global → World Value Global * result A.

Definition ret {A} (a : A) : M A := λ w, (w, Ok a).

Definition fail {A} (e : error) : M A := λ w, (w, Err e).

Definition bind {A B} (m : M A) (k : A → M B) : M B :=
  λ w, match m w with
       | (w', Ok a) => k a w'
       | (w', Err e) => (w', Err e)
       end.

(** Record an event. *)
Definition emit (ev : Event Value) : M unit :=
  λ w, (Build_World (live w) (flagsConfig w) (active w) (trace w ++ [ev]), Ok tt).

(** Overwrite the live object / the [--config] target. *)
Definition setLive (c : gmap string Value) : M unit :=
  λ w, (Build_World c (flagsConfig w) (active w) (trace w), Ok tt).

Definition setFlagsConfig (p : string) : M unit :=
  λ w, (Build_World (live w) p (active w) (trace w), Ok tt).

Definition setField (field : string) (v : Value) : M unit :=
  λ w, (Build_World (<[field := v]> (live w)) (flagsConfig w) (active w) (trace w), Ok tt).

(** The value of a pure call of type [(A, error)]. *)
Definition lift {A} (r : result A) : M A := λ w, (w, r).

(** [fn()]: the callback reads the live object and updates the
    process-wide state, also when it fails. *)
Definition call (fn : Callback Value Global) : M unit :=
  λ w, let '(g, r) := fn (live w) (active w) in
       (Build_World (live w) (flagsConfig w) g (trace w ++ [EvCallback (live w)]),
        match r with Some e => Err e | None => Ok tt end).

(** [if err != nil { return wrap(err) }] around a call. *)
Definition wrapErr {A} (wrap : error → error) (m : M A) : M A :=
  λ w, match m w with
       | (w', Ok a) => (w', Ok a)
       | (w', Err e) => (w', Err (wrap e))
       end.

(** The [error] a Go function of result type [error] returns. *)
Definition returned (r : result unit) : option error :=
  match r with Ok _ => None | Err e => Some e end.

End Monad.

Notation "'let*' x ':=' m 'in' k" := (bind m (λ x, k))
  (at level 10, x name, m at level 100, k at level 200).
Notation "'let*' '_' ':=' m 'in' k" := (bind m (λ _, k))
  (at level 10, m at level 100, k at level 200).

(** ** Flag parsing *)

(** One command-line argument, as the flag parser reads it. *)
Inductive Token : Type :=
| Positional
| Long (name value : string)
| BadSyntax.

(** [strings.SplitN(s, "=", 2)] when [s] holds an [=]. *)
Fixpoint splitEq (s : string) : option (string * string) :=
  match s with
  | EmptyString => None
  | String c s' =>
      if Ascii.eqb c "="%char then Some (EmptyString, s')
      else match splitEq s' with
           | Some (n, v) => Some (String c n, v)
           | None => None
           end
  end.

(** The spelling [--name=value] is a flag and an argument that does not
    start with a dash is positional.  The other spellings the flag
    library accepts (short flags, a value in the next argument, a bare
    boolean flag) are refused rather than guessed at. *)
Definition token (s : string) : Token :=
  match s with
  | String "-"%char (String "-"%char rest) =>
      match splitEq rest with
      | Some (EmptyString, _) => BadSyntax
      | Some (n, v) => Long n v
      | None => BadSyntax
      end
  | String "-"%char _ => BadSyntax
  | _ => Positional
  end.

Section Controller.
Context {Value Global Loader : Type}.
Variable env : Env Value Global Loader.

Local Abbreviation World := (World Value Global).

(** Modelled from the spec: the effect of parsing on the flags of
    [options.AddConfigFlags] and [ControllerFlags.AddFlags] (package
    [controller-binary/app/options], outside these sources).  The
    arguments are read from left to right; a flag that occurs in them
    stores its decoded value in the field it is bound to, and a flag
    that does not occur leaves its field alone.  The first argument
    that is not a known flag with a decodable value ends the parse
    with an error, the earlier flags staying applied. *)
Fixpoint parseArgs (args : list string) : M (Value := Value) (Global := Global) unit :=
  match args with
  | [] => ret tt
  | s :: rest =>
      match token s with
      | Positional => parseArgs rest
      | BadSyntax => fail (errorString ("bad flag syntax: " +:+ s))
      | Long name value =>
          match formal env name with
          | None => fail (errorString ("unknown flag: --" +:+ name))
          | Some ConfigPathFlag =>
              let* _ := setFlagsConfig value in parseArgs rest
          | Some (FieldFlag field decode) =>
              match decode value with
              | None =>
                  fail (errorString ("invalid argument " +:+ value +:+
                                     " for --" +:+ name +:+ " flag"))
              | Some v => let* _ := setField field v in parseArgs rest
              end
          end
      end
  end.

(** [cmd.ParseFlags(args)] *)
Definition ParseFlags (args : list string) : M unit :=
  let* _ := emit (EvParseFlags args) in
  parseArgs args.

(** Modelled from the spec: [ControllerConfiguration.DeepCopyInto]
    (generated code of [internal/apis/config/controller], outside these
    sources).  The receiver is copied over the object behind [out],
    field by field, fully replacing it; [out] is [cfg], the live
    object. *)
Definition DeepCopyInto (in_ : gmap string Value) : M (Value := Value) (Global := Global) unit :=
  let* _ := emit EvDeepCopyInto in
  setLive in_.

(** The message of lines 134, 139 and 144. *)
Definition loadError (configFilePath : string) (err : error) : error :=
  errorString ("failed to load config file " +:+ configFilePath
               +:+ ", error " +:+ Error err).

(** [start.go], lines 119 to 164. *)
Definition loadConfigFromFile
    (allArgs : list string) (configFilePath : string)
    (fn : Callback Value Global) : M unit :=
  let* _ := call fn in
  if bool_decide (0 < String.length configFilePath) then
    (* compute absolute path based on current working dir *)
    let* controllerConfigFile :=
      wrapErr (loadError configFilePath)
        (let* _ := emit (EvAbs configFilePath) in
         lift (filepath_Abs env configFilePath)) in
    let* loader :=
      wrapErr (loadError configFilePath)
        (let* _ := emit (EvNewLoader controllerConfigFile) in
         lift (NewConfigurationFSLoader env controllerConfigFile)) in
    let controllerConfigFromFile := controllerconfigfile_New env in
    let* controllerConfigFromFile :=
      wrapErr (loadError configFilePath)
        (let* _ := emit (EvLoad controllerConfigFile) in
         lift (Load env loader controllerConfigFromFile)) in
    let* _ := DeepCopyInto (Config controllerConfigFromFile) in
    let* args :=
      wrapErr (Errorf_w "failed to re-parse flags: ")
        (let* _ := emit (EvFind allArgs) in
         lift (Find env allArgs)) in
    let* _ := wrapErr (Errorf_w "failed to re-parse flags: ") (ParseFlags args) in
    let* _ := call fn in
    ret tt
  else
    ret tt.

(** The same function cut after the overlay: lines 131 to 147 ... *)
Definition fileOverlay (configFilePath : string) : M unit :=
  let* controllerConfigFile :=
    wrapErr (loadError configFilePath)
      (let* _ := emit (EvAbs configFilePath) in
       lift (filepath_Abs env configFilePath)) in
  let* loader :=
    wrapErr (loadError configFilePath)
      (let* _ := emit (EvNewLoader controllerConfigFile) in
       lift (NewConfigurationFSLoader env controllerConfigFile)) in
  let* controllerConfigFromFile :=
    wrapErr (loadError configFilePath)
      (let* _ := emit (EvLoad controllerConfigFile) in
       lift (Load env loader (controllerconfigfile_New env))) in
  DeepCopyInto (Config controllerConfigFromFile).

(** ... and lines 149 to 160. *)
Definition reparse (allArgs : list string) (fn : Callback Value Global) : M unit :=
  let* args :=
    wrapErr (Errorf_w "failed to re-parse flags: ")
      (let* _ := emit (EvFind allArgs) in
       lift (Find env allArgs)) in
  let* _ := wrapErr (Errorf_w "failed to re-parse flags: ") (ParseFlags args) in
  let* _ := call fn in
  ret tt.

(** The file-derived object for a path, or the cause for which there
    is none: the three calls of lines 132, 137 and 143 without the
    bookkeeping. *)
Definition loadFile (configFilePath : string) : result (ControllerConfigFile Value) :=
  match filepath_Abs env configFilePath with
  | Err cause => Err cause
  | Ok controllerConfigFile =>
      match NewConfigurationFSLoader env controllerConfigFile with
      | Err cause => Err cause
      | Ok loader => Load env loader (controllerconfigfile_New env)
      end
  end.

(** Whether the argument [s] is a flag bound to the field [f], and the
    value it carries for its field. *)
Definition boundTo (s f : string) : bool :=
  match token s with
  | Long name _ =>
      match formal env name with
      | Some (FieldFlag field _) => bool_decide (field = f)
      | _ => false
      end
  | _ => false
  end.

Definition flagValue (s : string) : option Value :=
  match token s with
  | Long name text =>
      match formal env name with
      | Some (FieldFlag _ decode) => decode text
      | _ => None
      end
  | _ => None
  end.

(** The value the flags of [args] give the field [f]: that of the last
    argument bound to it. *)
Fixpoint supplied (args : list string) (f : string) : option Value :=
  match args with
  | [] => None
  | s :: rest =>
      match supplied rest f with
      | Some v => Some v
      | None => if boundTo s f then flagValue s else None
      end
  end.

(** The callback [RunE] passes, lines 89 to 100. *)
Definition validationCallback : Callback Value Global :=
  λ controllerConfig g,
    match ValidateAndApply env controllerConfig g with
    | (g1, Some err) =>
        (g1, Some (Errorf_w "failed to validate controller logging flags: " err))
    | (g1, None) =>
        (* set feature gates from initial flags-based config *)
        match SetFromMap env controllerConfig g1 with
        | (g2, Some err) =>
            (g2, Some (Errorf_w
                   "failed to set feature gates from initial flags-based config: " err))
        | (g2, None) => (g2, None)
        end
    end.

(** [run(ctx, controllerConfig)]: the run loop gets the live object. *)
Definition callRun (run : Callback Value Global) : M unit :=
  λ w, let '(g, r) := run (live w) (active w) in
       (Build_World (live w) (flagsConfig w) g (trace w ++ [EvRun (live w)]),
        match r with Some e => Err e | None => Ok tt end).

(** The executable action of the command, lines 86 to 106.
    [controllerFlags.Config] is read when the action is called. *)
Definition RunE (run : Callback Value Global) (allArgs : list string) : M unit :=
  λ w,
    (let* _ := loadConfigFromFile allArgs (flagsConfig w) validationCallback in
     callRun run) w.

(** What the constructor hands back. *)
Record Command : Type :=
  { Use : string;
    args : list string;          (* cmd.SetArgs *)
    action : M (Value := Value) (Global := Global) unit;   (* RunE *)
    controllerFlags : string;    (* the ControllerFlags the flags are bound to *)
    controllerConfig : gmap string Value }.

(** A call either returns or ends the process ([os.Exit]). *)
Inductive Outcome (A : Type) : Type :=
| Returns (a : A)
| Exits (code : Z).

Definition componentController : string := "controller".

(** [newServerCommand], lines 62 to 117, as the events of the
    construction and its outcome. *)
Definition newServerCommand
    (run : Callback Value Global) (allArgs : list string)
  : list (Event Value) * Outcome Command :=
  let controllerFlags := NewControllerFlags env in
  match NewControllerConfiguration env with
  | Err err =>
      ([EvNewFlags;
        EvLogError "Failed to create new controller configuration" err;
        EvExit 1],
       Exits Command 1)
  | Ok controllerConfig =>
      let cmd := {| Use := componentController;
                    args := allArgs;
                    action := RunE run allArgs;
                    controllerFlags := controllerFlags;
                    controllerConfig := controllerConfig |} in
      ([EvNewFlags; EvAddFlags; EvAddConfigFlags; EvSetArgs allArgs],
       Returns Command cmd)
  end.

(** [NewServerCommand]: the run loop is [Run], the arguments are
    [os.Args[1:]]. *)
Definition NewServerCommand (os_Args : list string)
  : list (Event Value) * Outcome Command :=
  newServerCommand (Run env) (tail os_Args).

(** The world a command starts in. *)
Definition initial (cmd : Command) (g : Global) : World :=
  Build_World (controllerConfig cmd) (controllerFlags cmd) g [].

(** [cmd.Execute()] as far as this file depends on it: cobra locates
    the command, parses the flags of the arguments it was given (phase
    1) and calls the action. *)
Definition Execute (cmd : Command) : M unit :=
  let* flags := lift (Find env (args cmd)) in
  let* _ := parseArgs flags in
  action cmd.

End Controller.

(** The kind of an event, without its data. *)
Inductive Step : Type :=
| SCallback | SAbs | SNewLoader | SLoad | SDeepCopyInto | SFind | SParseFlags
| SRun | SLogError | SNewFlags | SAddFlags | SAddConfigFlags | SSetArgs | SExit.

Global Instance Step_eq_dec : EqDecision Step.
Proof. solve_decision. Defined.

Definition step {Value} (ev : Event Value) : Step :=
  match ev with
  | EvCallback _ => SCallback
  | EvAbs _ => SAbs
  | EvNewLoader _ => SNewLoader
  | EvLoad _ => SLoad
  | EvDeepCopyInto => SDeepCopyInto
  | EvFind _ => SFind
  | EvParseFlags _ => SParseFlags
  | EvRun _ => SRun
  | EvLogError _ _ => SLogError
  | EvNewFlags => SNewFlags
  | EvAddFlags => SAddFlags
  | EvAddConfigFlags => SAddConfigFlags
  | EvSetArgs _ => SSetArgs
  | EvExit _ => SExit
  end.

(** The steps of a merge that reads a file and succeeds. *)
Definition mergeSteps : list Step :=
  [SCallback; SAbs; SNewLoader; SLoad; SDeepCopyInto; SFind; SParseFlags; SCallback].

(** The events of a merge that reads a file and succeeds. *)
Definition mergeEvents {Value} (allArgs : list string) (path abs : string)
    (S : list string) (before after : gmap string Value) : list (Event Value) :=
  [EvCallback before; EvAbs path; EvNewLoader abs; EvLoad abs; EvDeepCopyInto;
   EvFind allArgs; EvParseFlags S; EvCallback after].

(** The world right after the overlay, before the flags are read again
    (without the events so far). *)
Definition overlaid {Value Global} (cf : ControllerConfigFile Value)
    (w : World Value Global) (g : Global) : World Value Global :=
  Build_World (Config cf) (flagsConfig w) g [].

(** Path resolution and file access. *)
Definition isFileStep (s : Step) : bool :=
  match s with
  | SAbs | SNewLoader | SLoad => true
  | _ => false
  end.

(** The steps that come before the first path resolution or file access. *)
Fixpoint beforeFile (steps : list Step) : list Step :=
  match steps with
  | [] => []
  | s :: rest => if isFileStep s then [] else s :: beforeFile rest
  end.

(** How often the callback is invoked. *)
Definition callbacks (steps : list Step) : nat :=
  length (filter (λ s, s = SCallback) steps).

(** A callback is idempotent when repeating it on the state it produced
    changes nothing. *)
Definition idempotent {Value Global} (fn : Callback Value Global) : Prop :=
  ∀ c g g', fn c g = (g', None) → fn c g' = (g', None).

(** ** A small controller to run the model on *)

Module Demo.

(** Field values are kept in their textual form. *)
Definition defaults : gmap string string :=
  {[ "leaderElect" := "true"; "kubeAPIQPS" := "20"; "featureGates" := "" ]}.

Definition decodeBool (text : string) : option string :=
  if bool_decide (text = "true") then Some "true"
  else if bool_decide (text = "false") then Some "false"
  else None.

Definition flags (name : string) : option (Binding string) :=
  if bool_decide (name = "config") then Some ConfigPathFlag
  else if bool_decide (name = "leader-elect") then Some (FieldFlag "leaderElect" decodeBool)
  else if bool_decide (name = "kube-api-qps") then Some (FieldFlag "kubeAPIQPS" Some)
  else if bool_decide (name = "feature-gates") then Some (FieldFlag "featureGates" Some)
  else None.

(** The working directory is [/work]. *)
Definition abs (path : string) : result string :=
  if HasPrefix path "/" then Ok path else Ok ("/work/" +:+ path).

(** The file system: [/work/file.yaml] turns leader election off and
    raises the QPS, [/work/gates.yaml] asks for a gate that does not
    exist. *)
Definition fileYaml : ControllerConfigFile string :=
  {| Config := <["leaderElect" := "false"]> (<["kubeAPIQPS" := "50"]> defaults) |}.

Definition gatesYaml : ControllerConfigFile string :=
  {| Config := <["featureGates" := "NoSuchGate=true"]> defaults |}.

Definition noSuchFile (path : string) : error :=
  errorString ("open " +:+ path +:+ ": no such file or directory").

Definition load (path : string) (into : ControllerConfigFile string)
  : result (ControllerConfigFile string) :=
  if bool_decide (path = "/work/file.yaml") then Ok fileYaml
  else if bool_decide (path = "/work/gates.yaml") then Ok gatesYaml
  else Err (noSuchFile path).

(** The process-wide state: the active leader-election setting and the
    active feature gates. *)
Definition Active : Type := option string * option string.

Definition validateAndApply (c : gmap string string) (g : Active)
  : Active * option error :=
  ((c !! "leaderElect", g.2), None).

Definition setFromMap (c : gmap string string) (g : Active)
  : Active * option error :=
  if bool_decide (c !! "featureGates" = Some "NoSuchGate=true") then
    (g, Some (errorString "unrecognized feature gate: NoSuchGate"))
  else ((g.1, c !! "featureGates"), None).

Definition env : Env string Active string :=
  {| NewControllerFlags := "";
     NewControllerConfiguration := Ok defaults;
     formal := flags;
     filepath_Abs := abs;
     NewConfigurationFSLoader := Ok;
     controllerconfigfile_New := {| Config := ∅ |};
     Load := load;
     Find := Ok;
     ValidateAndApply := validateAndApply;
     SetFromMap := setFromMap;
     Run := λ _ g, (g, None) |}.

(** The same controller when the root command cannot be located. *)
Definition lostRoot : Env string Active string :=
  {| NewControllerFlags := "";
     NewControllerConfiguration := Ok defaults;
     formal := flags;
     filepath_Abs := abs;
     NewConfigurationFSLoader := Ok;
     controllerconfigfile_New := {| Config := ∅ |};
     Load := load;
     Find := λ _, Err (errorString "unknown command");
     ValidateAndApply := validateAndApply;
     SetFromMap := setFromMap;
     Run := λ _ g, (g, None) |}.

(** The same controller when the defaults cannot be built. *)
Definition noDefaults : Env string Active string :=
  {| NewControllerFlags := "";
     NewControllerConfiguration := Err (errorString "malformed feature gate table");
     formal := flags;
     filepath_Abs := abs;
     NewConfigurationFSLoader := Ok;
     controllerconfigfile_New := {| Config := ∅ |};
     Load := load;
     Find := Ok;
     ValidateAndApply := validateAndApply;
     SetFromMap := setFromMap;
     Run := λ _ g, (g, None) |}.

Definition cold : Active := (None, None).

(** The world after phase 1 of the given arguments. *)
Definition afterPhase1 (args : list string) : World string Active :=
  (parseArgs env args (Build_World defaults "" cold [])).1.

(** The callback of the action. *)
Definition callback : gmap string string → Active → Active * option error :=
  validationCallback env.

(** Argument vectors. *)
Definition fileOnly : list string := ["--config=file.yaml"; "--kube-api-qps=7"].
Definition fileAndFlag : list string :=
  ["--leader-elect=false"; "--config=file.yaml"; "--leader-elect=true"; "--kube-api-qps=7"].
Definition flagOnly : list string := ["--leader-elect=false"].
Definition missingFile : list string := ["--config=missing.yaml"].
Definition badGates : list string := ["--config=gates.yaml"; "--leader-elect=false"].
Definition unknownFlag : list string :=
  ["--config=file.yaml"; "--kube-api-qps=7"; "--no-such-flag=1"; "--leader-elect=true"].
Definition gateFlag : list string :=
  ["--feature-gates=NoSuchGate=true"; "--config=file.yaml"].

(** The merge as the action runs it after phase 1 of [args]. *)
Definition merge (e : Env string Active string) (args : list string) (path : string)
  : World string Active * result unit :=
  loadConfigFromFile e args path callback (afterPhase1 args).

(** Build the command for the arguments and execute it. *)
Definition start (e : Env string Active string) (args : list string)
  : option (World string Active * result unit) :=
  match newServerCommand e (Run e) args with
  | (_, Returns _ cmd) => Some (Execute e cmd (initial cmd cold))
  | (_, Exits _ _) => None
  end.

End Demo.

(** * Properties *)

(** ** Strings *)

Lemma HasPrefix_app (p s : string) : HasPrefix (p +:+ s) p = true.
Proof.
  induction p as [|c p IH]; simpl; [done|].
  by rewrite Ascii.eqb_refl.
Qed.

Lemma HasPrefix_Contains (s p : string) : HasPrefix s p = true → Contains s p = true.
Proof. intros H. destruct s; simpl; rewrite H; done. Qed.

Lemma Contains_app (a p b : string) : Contains (a +:+ p +:+ b) p = true.
Proof.
  induction a as [|c a IH].
  - change (Contains (p +:+ b) p = true).
    apply HasPrefix_Contains, HasPrefix_app.
  - change (Contains (String c (a +:+ p +:+ b)) p = true).
    simpl. rewrite IH. apply orb_true_r.
Qed.

Lemma append_assoc (a b c : string) : (a +:+ b) +:+ c = a +:+ b +:+ c.
Proof.
  induction a as [|x a IH]; [done|].
  change (String x ((a +:+ b) +:+ c) = String x (a +:+ b +:+ c)).
  by rewrite IH.
Qed.

Lemma append_empty_r (a : string) : a +:+ "" = a.
Proof.
  induction a as [|x a IH]; [done|].
  change (String x (a +:+ "") = String x a).
  by rewrite IH.
Qed.

(** The message of a load error names the path and the cause. *)
Lemma loadError_Contains (path : string) (cause : error) :
  Contains (Error (loadError path cause)) path = true ∧
  Contains (Error (loadError path cause)) (Error cause) = true.
Proof.
  unfold loadError, Error at 1 3. split.
  - apply Contains_app.
  - rewrite <- (append_empty_r (Error cause)) at 1.
    rewrite <- !append_assoc, append_assoc. apply Contains_app.
Qed.

Section Properties.
Context {Value Global Loader : Type}.
Variable env : Env Value Global Loader.

Local Abbreviation World := (World Value Global).
Implicit Types (w : World) (fn run : Callback Value Global)
  (allArgs S : list string) (f path : string).

(** ** Flag parsing *)

(** Parsing touches neither the process-wide state nor the trace. *)
Lemma parseArgs_frame S : ∀ w w' r,
  parseArgs env S w = (w', r) → active w' = active w ∧ trace w' = trace w.
Proof.
  induction S as [|s S IH]; intros w w' r; simpl.
  - unfold ret. by intros [= <- <-].
  - destruct (token s) as [|name value|]; [apply IH| |by intros [= <- <-]].
    destruct (formal env name) as [[field decode|]|]; [| |by intros [= <- <-]].
    + destruct (decode value) as [v|]; [|by intros [= <- <-]].
      unfold bind, setField. intros H. by apply IH in H.
    + unfold bind, setFlagsConfig. intros H. by apply IH in H.
Qed.

(** After a successful parse a field holds the value the flags supply
    for it, and its old value when they supply none. *)
Lemma parseArgs_lookup S f : ∀ w w',
  parseArgs env S w = (w', Ok tt) →
  live w' !! f = match supplied env S f with
                 | Some v => Some v
                 | None => live w !! f
                 end.
Proof.
  induction S as [|s S IH]; intros w w'; simpl.
  - unfold ret. by intros [= <-].
  - unfold boundTo, flagValue.
    destruct (token s) as [|name value|]; [|  |done].
    { intros H. rewrite (IH _ _ H). by destruct (supplied env S f). }
    destruct (formal env name) as [[field decode|]|]; [| |done].
    + destruct (decode value) as [v|] eqn:Hv; [|done].
      unfold bind, setField. intros H. rewrite (IH _ _ H). simpl.
      destruct (supplied env S f); [done|].
      case_bool_decide as Hf.
      * subst. by rewrite lookup_insert_eq.
      * by rewrite lookup_insert_ne.
    + unfold bind, setFlagsConfig. intros H. rewrite (IH _ _ H). simpl.
      by destruct (supplied env S f).
Qed.

(** The outcome of a parse depends on the live object and on the
    [--config] target only. *)
Lemma parseArgs_indep S : ∀ w w' r (g : Global) t,
  parseArgs env S w = (w', r) →
  parseArgs env S (Build_World (live w) (flagsConfig w) g t)
  = (Build_World (live w') (flagsConfig w') g t, r).
Proof.
  induction S as [|s S IH]; intros w w' r g t; simpl.
  - unfold ret. by intros [= <- <-].
  - destruct (token s) as [|name value|]; [apply IH| |by intros [= <- <-]].
    destruct (formal env name) as [[field decode|]|]; [| |by intros [= <- <-]].
    + destruct (decode value) as [v|]; [|by intros [= <- <-]].
      unfold bind, setField. simpl. intros H. by apply (IH _ _ _ g t) in H.
    + unfold bind, setFlagsConfig. simpl. intros H. by apply (IH _ _ _ g t) in H.
Qed.

(** A successful parse succeeds from any other [--config] target and
    yields the same live object; the target it ends with is the one of
    the first parse, or else it is left as it was in both. *)
Lemma parseArgs_target S : ∀ w w' p,
  parseArgs env S w = (w', Ok tt) →
  ∃ p', parseArgs env S (Build_World (live w) p (active w) (trace w))
        = (Build_World (live w') p' (active w) (trace w), Ok tt)
        ∧ (p' = flagsConfig w' ∨ (p' = p ∧ flagsConfig w' = flagsConfig w)).
Proof.
  induction S as [|s S IH]; intros w w' p; simpl.
  - unfold ret. intros [= <-]. exists p. auto.
  - destruct (token s) as [|name value|]; [apply IH| |done].
    destruct (formal env name) as [[field decode|]|]; [| |done].
    + destruct (decode value) as [v|]; [|done].
      unfold bind, setField. simpl. intros H.
      destruct (IH _ _ p H) as (p' & Hp & Hor). exists p'. by split.
    + unfold bind, setFlagsConfig. simpl. intros H.
      destruct (IH _ _ value H) as (p' & Hp & Hor). simpl in *.
      exists p'. split; [done|]. left.
      destruct Hor as [->|[-> ->]]; done.
Qed.

(** ** The merge, case by case *)

Lemma merge_no_file allArgs path fn w :
  String.length path = 0 →
  loadConfigFromFile env allArgs path fn w = call fn w.
Proof.
  intros Hlen. unfold loadConfigFromFile, bind.
  destruct (call fn w) as [w1 [[]|e]]; [|done].
  rewrite bool_decide_eq_false_2; [done|lia].
Qed.

(** A merge that reads a file succeeds exactly when every step does,
    and then ends in the world the steps build. *)
Lemma merge_file_success allArgs path fn w w' :
  0 < String.length path →
  loadConfigFromFile env allArgs path fn w = (w', Ok tt) ↔
  ∃ g1 abs cf S wp g2,
    fn (live w) (active w) = (g1, None) ∧
    filepath_Abs env path = Ok abs ∧
    loadFile env path = Ok cf ∧
    Find env allArgs = Ok S ∧
    parseArgs env S (overlaid cf w g1) = (wp, Ok tt) ∧
    fn (live wp) g1 = (g2, None) ∧
    w' = Build_World (live wp) (flagsConfig wp) g2
           (trace w ++ mergeEvents allArgs path abs S (live w) (live wp)).
Proof.
  intros Hlen. unfold loadConfigFromFile, DeepCopyInto, ParseFlags, loadFile, overlaid,
    bind, wrapErr, call, lift, emit, setLive, ret.
  rewrite bool_decide_eq_true_2 by done. simpl.
  destruct (fn (live w) (active w)) as [g1 [e|]] eqn:HA; simpl.
  { split; [done|]. intros (?&?&?&?&?&?&[=]&_). }
  destruct (filepath_Abs env path) as [abs|e] eqn:Habs; simpl.
  2:{ split; [done|]. intros (?&?&?&?&?&?&_&[=]&_). }
  destruct (NewConfigurationFSLoader env abs) as [loader|e] eqn:Hnew; simpl.
  2:{ split; [done|]. intros (?&?&?&?&?&?&_&_&[=]&_). }
  destruct (Load env loader (controllerconfigfile_New env)) as [cf|e] eqn:Hload; simpl.
  2:{ split; [done|]. intros (?&?&?&?&?&?&_&_&[=]&_). }
  destruct (Find env allArgs) as [S|e] eqn:Hfind; simpl.
  2:{ split; [done|]. intros (?&?&?&?&?&?&_&_&_&[=]&_). }
  match goal with |- context [parseArgs env S ?w0] => set (w5 := w0) end.
  destruct (parseArgs env S w5) as [wp r] eqn:Hparse.
  pose proof (parseArgs_frame _ _ _ _ Hparse) as [Hact Htr].
  pose proof (parseArgs_indep _ _ _ _ g1 [] Hparse) as Hcanon. simpl in Hcanon.
  simpl in Hact, Htr.
  destruct r as [[]|e]; simpl.
  2:{ split; [done|]. intros (?&?&?&?&?&?&[=]&[=]&[=]&[=]&Hp&_).
      subst. rewrite Hcanon in Hp. done. }
  rewrite Hact, Htr.
  destruct (fn (live wp) g1) as [g2 [e|]] eqn:HB; simpl.
  { split; [done|]. intros (?&?&?&?&?&?&[=]&[=]&[=]&[=]&Hp&HB'&_).
    subst. rewrite Hcanon in Hp. injection Hp as <-. simpl in HB'.
    rewrite HB in HB'. done. }
  unfold mergeEvents. rewrite <- !app_assoc. simpl. split.
  - intros [= <-]. by eexists g1, abs, cf, S, _, g2.
  - intros (?&?&?&?&?&?&[=]&[=]&[=]&[=]&Hp&HB'&->). subst.
    rewrite Hcanon in Hp. injection Hp as <-. simpl in *.
    rewrite HB in HB'. by injection HB' as <-.
Qed.

(** A merge whose file cannot be loaded fails with the load error
    and leaves the live object alone. *)
Lemma merge_file_fails allArgs path fn w g1 cause :
  0 < String.length path →
  fn (live w) (active w) = (g1, None) →
  loadFile env path = Err cause →
  ∃ evs, loadConfigFromFile env allArgs path fn w
         = (Build_World (live w) (flagsConfig w) g1 (trace w ++ evs),
            Err (loadError path cause)).
Proof.
  intros Hlen HA. unfold loadConfigFromFile, DeepCopyInto, loadFile,
    bind, wrapErr, call, lift, emit, setLive, ret.
  rewrite bool_decide_eq_true_2 by done. rewrite HA. simpl.
  destruct (filepath_Abs env path) as [abs|e]; simpl.
  2:{ intros [= ->]. rewrite <- !app_assoc. by eexists. }
  destruct (NewConfigurationFSLoader env abs) as [loader|e]; simpl.
  2:{ intros [= ->]. rewrite <- !app_assoc. by eexists. }
  intros ->. simpl. rewrite <- !app_assoc. by eexists.
Qed.

Local Ltac prefix_of_steps n :=
  eexists _, n; split; [reflexivity|]; split; [lia|]; split; reflexivity.

(** The steps of any run of the merge are an initial part of
    [mergeSteps] that starts with the callback on the live object of
    the entry. *)
Lemma merge_steps allArgs path fn w w' r :
  loadConfigFromFile env allArgs path fn w = (w', r) →
  ∃ evs n, trace w' = trace w ++ evs ∧ 1 ≤ n ∧
           step <$> evs = take n mergeSteps ∧
           head evs = Some (EvCallback (live w)).
Proof.
  unfold loadConfigFromFile, DeepCopyInto, ParseFlags,
    bind, wrapErr, call, lift, emit, setLive, ret.
  destruct (fn (live w) (active w)) as [g1 [e|]]; simpl.
  { intros [= <- <-]. by prefix_of_steps 1. }
  case_bool_decide.
  2:{ intros [= <- <-]. by prefix_of_steps 1. }
  simpl. destruct (filepath_Abs env path) as [abs|e]; simpl.
  2:{ intros [= <- <-]. simpl. rewrite <- !app_assoc. by prefix_of_steps 2. }
  destruct (NewConfigurationFSLoader env abs) as [loader|e]; simpl.
  2:{ intros [= <- <-]. simpl. rewrite <- !app_assoc. by prefix_of_steps 3. }
  destruct (Load env loader (controllerconfigfile_New env)) as [cf|e]; simpl.
  2:{ intros [= <- <-]. simpl. rewrite <- !app_assoc. by prefix_of_steps 4. }
  destruct (Find env allArgs) as [S|e]; simpl.
  2:{ intros [= <- <-]. simpl. rewrite <- !app_assoc. by prefix_of_steps 6. }
  match goal with |- context [parseArgs env S ?w0] => set (w5 := w0) end.
  destruct (parseArgs env S w5) as [wp rp] eqn:Hparse.
  pose proof (parseArgs_frame _ _ _ _ Hparse) as [Hact Htr]. simpl in Hact, Htr.
  destruct rp as [[]|e]; simpl.
  2:{ intros [= <- <-]. rewrite Htr, <- !app_assoc. by prefix_of_steps 7. }
  destruct (fn (live wp) (active wp)) as [g2 [e|]]; simpl;
    intros [= <- <-]; simpl; rewrite Htr, <- !app_assoc; by prefix_of_steps 8.
Qed.

(** ** What the flags supply *)


Lemma supplied_absent S f :
  Forall (λ t, boundTo env t f = false) S → supplied env S f = None.
Proof.
  induction 1 as [|s S Hs _ IH]; simpl; [done|].
  by rewrite IH, Hs.
Qed.


(** The resolved value of every field after a merge that read the
    file-derived object [cf] and the flags [S]. *)
Lemma merge_lookup allArgs path fn w w' cf S f :
  0 < String.length path →
  loadFile env path = Ok cf →
  Find env allArgs = Ok S →
  loadConfigFromFile env allArgs path fn w = (w', Ok tt) →
  live w' !! f = match supplied env S f with
                 | Some v => Some v
                 | None => Config cf !! f
                 end.
Proof.
  intros Hlen Hcf HS Hrun.
  apply merge_file_success in Hrun as (g1&abs&cf'&S'&wp&g2&_&_&Hcf'&HS'&Hp&_&->);
    [|done].
  rewrite Hcf in Hcf'. rewrite HS in HS'.
  injection Hcf' as <-. injection HS' as <-.
  apply (parseArgs_lookup _ f) in Hp. done.
Qed.

(** ** The claims *)


(** C2. The file wins over defaults.  Let the configuration file at
    [path] be valid, with file-derived object [cf], and let [S] be the
    flags of the argument vector.  If the field [f] is present in the
    file with value [x] and no argument of [S] is a flag bound to [f],
    then the merge resolves [f] to [x]: reading the flags again does
    not put the default of a flag that was not supplied over the value
    of the file. *)
Theorem file_wins_without_flag allArgs path fn w w' cf S f x :
  0 < String.length path →
  loadFile env path = Ok cf →
  Find env allArgs = Ok S →
  Config cf !! f = Some x →
  Forall (λ t, boundTo env t f = false) S →
  loadConfigFromFile env allArgs path fn w = (w', Ok tt) →
  live w' !! f = Some x.
Proof.
  intros Hlen Hcf HS Hx Habs Hrun.
  rewrite (merge_lookup _ _ _ _ _ _ _ f Hlen Hcf HS Hrun).
  by rewrite (supplied_absent _ _ Habs).
Qed.

(** C3. Without a configuration file the overlay is a no-op.  When
    [ConfigFilePath] is empty the merge is the phase-A callback and
    nothing else: it returns what the callback returns (success when
    the callback succeeds), its only event is that callback, so no path
    is resolved and no file is read, and the live object and the
    [--config] target are the ones of phase 1. *)
Theorem no_file_no_overlay allArgs path fn w w' r :
  String.length path = 0 →
  loadConfigFromFile env allArgs path fn w = (w', r) →
  live w' = live w ∧
  flagsConfig w' = flagsConfig w ∧
  trace w' = trace w ++ [EvCallback (live w)] ∧
  fn (live w) (active w) = (active w', returned r) ∧
  ((fn (live w) (active w)).2 = None → r = Ok tt).
Proof.
  intros Hlen. rewrite merge_no_file by done. unfold call.
  destruct (fn (live w) (active w)) as [g [e|]]; intros [= <- <-]; simpl; done.
Qed.

Lemma merge_steps_facts n :
  1 ≤ n →
  callbacks (beforeFile (take n mergeSteps)) = 1 ∧
  callbacks (take n mergeSteps) ≤ 2 ∧
  SRun ∉ take n mergeSteps.
Proof.
  intros Hn. split; [|split].
  - do 2 (destruct n as [|n]; [lia || reflexivity|]); reflexivity.
  - do 9 (destruct n as [|n]; [vm_compute; lia|]). vm_compute; lia.
  - intros Hin%(subseteq_take n mergeSteps). unfold mergeSteps in Hin.
    apply list_elem_of_In in Hin. simpl in Hin. intuition discriminate.
Qed.


(** C5. No run loop after a failed merge.  Whatever the action returns,
    the merge it ran emitted no run-loop event; if the merge returned
    an error the action returns that very error in the world the merge
    left, and the run loop is entered only when the merge succeeded,
    after all of its steps, on the resolved live object. *)
Theorem run_only_after_merge run allArgs w w' r :
  RunE env run allArgs w = (w', r) →
  ∃ w1 r1 evs,
    loadConfigFromFile env allArgs (flagsConfig w) (validationCallback env) w = (w1, r1) ∧
    trace w1 = trace w ++ evs ∧
    (SRun ∉ step <$> evs) ∧
    match r1 with
    | Err e => w' = w1 ∧ r = Err e
    | Ok _ => trace w' = trace w1 ++ [EvRun (live w1)] ∧
              live w' = live w1 ∧
              run (live w1) (active w1) = (active w', returned r)
    end.
Proof.
  unfold RunE, bind, callRun.
  destruct (loadConfigFromFile env allArgs (flagsConfig w) (validationCallback env) w)
    as [w1 r1] eqn:Hrun.
  destruct (merge_steps _ _ _ _ _ _ Hrun) as (evs & n & Htr & Hn & Hsteps & _).
  destruct (merge_steps_facts n Hn) as (_ & _ & Hnorun).
  intros H. exists w1, r1, evs.
  split; [done|]. split; [done|]. split; [by rewrite Hsteps|].
  destruct r1 as [[]|e].
  - destruct (run (live w1) (active w1)) as [g [e|]];
      injection H as <- <-; done.
  - by injection H as <- <-.
Qed.

(** C6. The merge is idempotent.  With an idempotent callback, a merge
    that succeeded succeeds again when it is run from the state it
    resolved, on the same arguments, path and file, and resolves the
    very same live object, [--config] target and process-wide state. *)
Theorem merge_idempotent allArgs path fn w w1 :
  idempotent fn →
  loadConfigFromFile env allArgs path fn w = (w1, Ok tt) →
  ∃ w2, loadConfigFromFile env allArgs path fn w1 = (w2, Ok tt) ∧
        live w2 = live w1 ∧
        flagsConfig w2 = flagsConfig w1 ∧
        active w2 = active w1.
Proof.
  intros Hidem Hrun.
  destruct (decide (0 < String.length path)) as [Hlen|Hlen].
  - apply merge_file_success in Hrun as (g1&abs&cf&S&wp&g2&HA&Habs&Hcf&HS&Hp&HB&->);
      [|done].
    destruct (parseArgs_target _ _ _ (flagsConfig wp) Hp) as (p' & Hp' & Hor).
    assert (p' = flagsConfig wp) as -> by (destruct Hor as [->|[-> _]]; done).
    apply (parseArgs_indep _ _ _ _ g2 []) in Hp'. simpl in Hp'.
    eexists. split.
    + apply merge_file_success; [done|].
      exists g2, abs, cf, S, (Build_World (live wp) (flagsConfig wp) g2 []), g2.
      simpl. repeat split; try done; by apply Hidem with g1.
    + done.
  - rewrite merge_no_file in Hrun by lia. rewrite merge_no_file by lia.
    unfold call in *.
    destruct (fn (live w) (active w)) as [g [e|]] eqn:HA; [done|].
    injection Hrun as <-. simpl. rewrite (Hidem _ _ _ HA). by eexists.
Qed.

(** [fileOverlay] and [reparse] are the two halves of the branch of
    [loadConfigFromFile] that reads a file. *)
Lemma merge_cut allArgs path fn w :
  loadConfigFromFile env allArgs path fn w
  = (let* _ := call fn in
     if bool_decide (0 < String.length path) then
       let* _ := fileOverlay env path in reparse env allArgs fn
     else ret tt) w.
Proof.
  unfold loadConfigFromFile, fileOverlay, reparse, DeepCopyInto,
    bind, wrapErr, lift, emit, setLive, ret.
  destruct (call fn w) as [wA [[]|e]]; [|done].
  case_bool_decide; [|done]. simpl.
  destruct (filepath_Abs env path) as [abs|e]; simpl; [|done].
  destruct (NewConfigurationFSLoader env abs) as [loader|e]; simpl; [|done].
  by destruct (Load env loader (controllerconfigfile_New env)) as [cf|e].
Qed.

(** C7. The overlay replaces the live object.  When the phase-A
    callback and the steps up to the overlay succeed, the live object
    right after the overlay is the file-derived object, on every
    field and whatever the live object held before, and it is from
    that state that the rest of the merge goes on. *)
Theorem overlay_replaces_live allArgs path fn w wA w5 :
  0 < String.length path →
  call fn w = (wA, Ok tt) →
  fileOverlay env path wA = (w5, Ok tt) →
  (∃ cf, loadFile env path = Ok cf ∧
         live w5 = Config cf ∧
         ∀ f, live w5 !! f = Config cf !! f) ∧
  loadConfigFromFile env allArgs path fn w = reparse env allArgs fn w5.
Proof.
  intros Hlen HA. unfold loadConfigFromFile, fileOverlay, reparse, DeepCopyInto,
    loadFile, bind, wrapErr, lift, emit, setLive, ret.
  rewrite HA, bool_decide_eq_true_2 by done. simpl.
  destruct (filepath_Abs env path) as [abs|e]; simpl; [|done].
  destruct (NewConfigurationFSLoader env abs) as [loader|e]; simpl; [|done].
  destruct (Load env loader (controllerconfigfile_New env)) as [cf|e]; simpl; [|done].
  intros [= <-]. simpl. split; [by exists cf|].
  destruct (Find env allArgs) as [S|e]; simpl; [|done].
  match goal with |- context [ParseFlags env S ?w0] => destruct (ParseFlags env S w0) as [wp [[]|e]] end;
    simpl; [|done].
  by destruct (call fn wp) as [wB [[]|e]].
Qed.

(** C8. Load errors name the file and the cause.  When the phase-A
    callback succeeds and path resolution, the construction of the
    loader or the load itself fails with [cause], the merge returns an
    error whose message contains the path it was given and the message
    of [cause]. *)
Theorem load_error_names_path_and_cause allArgs path fn w g1 cause :
  0 < String.length path →
  fn (live w) (active w) = (g1, None) →
  loadFile env path = Err cause →
  ∃ w' e, loadConfigFromFile env allArgs path fn w = (w', Err e) ∧
          Contains (Error e) path = true ∧
          Contains (Error e) (Error cause) = true.
Proof.
  intros Hlen HA Hcause.
  destruct (merge_file_fails allArgs _ _ _ _ _ Hlen HA Hcause) as (evs & Hrun).
  eexists _, _. split; [exact Hrun|]. apply loadError_Contains.
Qed.

(** C9. A failed construction ends the process.  When the default
    configuration cannot be built the constructor logs the failure and
    exits with status 1: it returns no command, and no flag is
    registered and no argument set or parsed before the exit. *)
Theorem construction_failure_exits run allArgs err :
  NewControllerConfiguration env = Err err →
  ∃ evs, newServerCommand env run allArgs = (evs, Exits _ 1) ∧
         evs = [EvNewFlags;
                EvLogError "Failed to create new controller configuration" err;
                EvExit 1] ∧
         (1 ≠ 0)%Z ∧
         (SAddFlags ∉ step <$> evs) ∧
         (SAddConfigFlags ∉ step <$> evs) ∧
         (SSetArgs ∉ step <$> evs) ∧
         (SParseFlags ∉ step <$> evs).
Proof.
  intros Herr. unfold newServerCommand. rewrite Herr. eexists. split; [done|].
  split; [done|]. split; [done|].
  repeat split; intros Hin%list_elem_of_In; simpl in Hin; intuition discriminate.
Qed.


End Properties.

(** ** The claims at work on the small controller *)

Lemma Demo_callback_idempotent : idempotent Demo.callback.
Proof.
  intros c [a b] g'. unfold Demo.callback, validationCallback; simpl.
  unfold Demo.validateAndApply, Demo.setFromMap; simpl.
  destruct (bool_decide (c !! "featureGates" = Some "NoSuchGate=true")) eqn:E;
    [done|].
  by intros [= <-].
Qed.


Lemma file_wins_without_flag_witness :
  live (Demo.merge Demo.env Demo.fileOnly "file.yaml").1 !! "leaderElect" = Some "false".
Proof.
  apply (file_wins_without_flag Demo.env Demo.fileOnly "file.yaml" Demo.callback
           (Demo.afterPhase1 Demo.fileOnly) _ Demo.fileYaml Demo.fileOnly
           "leaderElect" "false").
  - simpl; lia.
  - vm_compute; reflexivity.
  - reflexivity.
  - vm_compute; reflexivity.
  - repeat constructor.
  - vm_compute; reflexivity.
Defined.

Lemma no_file_no_overlay_witness :
  live (Demo.merge Demo.env Demo.flagOnly "").1 = live (Demo.afterPhase1 Demo.flagOnly) ∧
  trace (Demo.merge Demo.env Demo.flagOnly "").1
  = [EvCallback (live (Demo.afterPhase1 Demo.flagOnly))] ∧
  (Demo.merge Demo.env Demo.flagOnly "").2 = Ok tt.
Proof.
  destruct (no_file_no_overlay Demo.env Demo.flagOnly "" Demo.callback
              (Demo.afterPhase1 Demo.flagOnly)
              (Demo.merge Demo.env Demo.flagOnly "").1
              (Demo.merge Demo.env Demo.flagOnly "").2)
    as (Hlive & _ & Htrace & _ & Hok).
  - reflexivity.
  - vm_compute; reflexivity.
  - split; [exact Hlive|]. split; [exact Htrace|]. apply Hok. vm_compute; reflexivity.
Defined.


Lemma run_only_after_merge_witness :
  (RunE Demo.env (Run Demo.env) Demo.missingFile (Demo.afterPhase1 Demo.missingFile)).2
  = Err (loadError "missing.yaml" (Demo.noSuchFile "/work/missing.yaml")) ∧
  ∃ evs,
    trace (RunE Demo.env (Run Demo.env) Demo.missingFile
             (Demo.afterPhase1 Demo.missingFile)).1 = [] ++ evs ∧
    (SRun ∉ step <$> evs).
Proof.
  destruct (run_only_after_merge Demo.env (Run Demo.env) Demo.missingFile
              (Demo.afterPhase1 Demo.missingFile)
              (RunE Demo.env (Run Demo.env) Demo.missingFile
                 (Demo.afterPhase1 Demo.missingFile)).1
              (Err (loadError "missing.yaml" (Demo.noSuchFile "/work/missing.yaml"))))
    as (w1 & r1 & evs & Hmerge & Htrace & Hnorun & Hcase).
  - vm_compute; reflexivity.
  - split; [vm_compute; reflexivity|]. exists evs.
    assert (r1 = Err (loadError "missing.yaml" (Demo.noSuchFile "/work/missing.yaml")))
      as ->.
    { apply (f_equal snd) in Hmerge. simpl in Hmerge. rewrite <- Hmerge.
      vm_compute; reflexivity. }
    destruct Hcase as [-> _]. split; [exact Htrace|exact Hnorun].
Defined.

Lemma merge_idempotent_witness :
  ∃ w2,
    loadConfigFromFile Demo.env Demo.fileAndFlag "file.yaml" Demo.callback
      (Demo.merge Demo.env Demo.fileAndFlag "file.yaml").1 = (w2, Ok tt) ∧
    live w2 = live (Demo.merge Demo.env Demo.fileAndFlag "file.yaml").1 ∧
    flagsConfig w2 = flagsConfig (Demo.merge Demo.env Demo.fileAndFlag "file.yaml").1 ∧
    active w2 = active (Demo.merge Demo.env Demo.fileAndFlag "file.yaml").1.
Proof.
  apply (merge_idempotent Demo.env Demo.fileAndFlag "file.yaml" Demo.callback
           (Demo.afterPhase1 Demo.fileAndFlag)).
  - exact Demo_callback_idempotent.
  - vm_compute; reflexivity.
Defined.

Lemma overlay_replaces_live_witness :
  (∃ cf, loadFile Demo.env "file.yaml" = Ok cf ∧
         live (fileOverlay Demo.env "file.yaml"
                 (call Demo.callback (Demo.afterPhase1 Demo.fileAndFlag)).1).1 = Config cf ∧
         ∀ f, live (fileOverlay Demo.env "file.yaml"
                 (call Demo.callback (Demo.afterPhase1 Demo.fileAndFlag)).1).1 !! f
              = Config cf !! f) ∧
  Demo.merge Demo.env Demo.fileAndFlag "file.yaml"
  = reparse Demo.env Demo.fileAndFlag Demo.callback
      (fileOverlay Demo.env "file.yaml"
         (call Demo.callback (Demo.afterPhase1 Demo.fileAndFlag)).1).1.
Proof.
  apply (overlay_replaces_live Demo.env Demo.fileAndFlag "file.yaml" Demo.callback
           (Demo.afterPhase1 Demo.fileAndFlag)
           (call Demo.callback (Demo.afterPhase1 Demo.fileAndFlag)).1).
  - simpl; lia.
  - vm_compute; reflexivity.
  - vm_compute; reflexivity.
Defined.

Lemma load_error_names_path_and_cause_witness :
  ∃ w' e,
    Demo.merge Demo.env Demo.missingFile "missing.yaml" = (w', Err e) ∧
    Contains (Error e) "missing.yaml" = true ∧
    Contains (Error e) (Error (Demo.noSuchFile "/work/missing.yaml")) = true.
Proof.
  apply (load_error_names_path_and_cause Demo.env Demo.missingFile "missing.yaml"
           Demo.callback (Demo.afterPhase1 Demo.missingFile) (Some "true", Some "")).
  - simpl; lia.
  - vm_compute; reflexivity.
  - vm_compute; reflexivity.
Defined.

Lemma construction_failure_exits_witness :
  ∃ evs,
    newServerCommand Demo.noDefaults (Run Demo.noDefaults) Demo.flagOnly
    = (evs, Exits _ 1) ∧
    evs = [EvNewFlags;
           EvLogError "Failed to create new controller configuration"
             (errorString "malformed feature gate table");
           EvExit 1] ∧
    (1 ≠ 0)%Z ∧
    (SAddFlags ∉ step <$> evs) ∧
    (SAddConfigFlags ∉ step <$> evs) ∧
    (SSetArgs ∉ step <$> evs) ∧
    (SParseFlags ∉ step <$> evs).
Proof.
  apply (construction_failure_exits Demo.noDefaults (Run Demo.noDefaults) Demo.flagOnly
           (errorString "malformed feature gate table")).
  reflexivity.
Defined.


(** The value a flag set in phase 1 is lost when the root command cannot
    be located after the overlay ... *)
Example phase1_value_not_recovered :
  live (Demo.afterPhase1 Demo.fileAndFlag) !! "leaderElect" = Some "true" ∧
  live (Demo.merge Demo.lostRoot Demo.fileAndFlag "file.yaml").1 !! "leaderElect"
  = Some "false".
Proof. split; vm_compute; reflexivity. Qed.

(** ... the flags before an argument that cannot be parsed stay applied
    and the ones after it are not ... *)
Example partial_reparse_is_kept :
  (Demo.merge Demo.env Demo.unknownFlag "file.yaml").2
  = Err (Errorf_w "failed to re-parse flags: " (errorString "unknown flag: --no-such-flag")) ∧
  live (Demo.merge Demo.env Demo.unknownFlag "file.yaml").1 !! "kubeAPIQPS" = Some "7" ∧
  live (Demo.merge Demo.env Demo.unknownFlag "file.yaml").1 !! "leaderElect" = Some "false".
Proof. repeat split; vm_compute; reflexivity. Qed.

(** ... and a failure of the phase-B callback leaves the merged object. *)
Example phaseB_failure_keeps_merge :
  Unwrap <$> returned (Demo.merge Demo.env Demo.badGates "gates.yaml").2
  = Some (Some (errorString "unrecognized feature gate: NoSuchGate")) ∧
  live (Demo.merge Demo.env Demo.badGates "gates.yaml").1
  = <["leaderElect" := "false"]> (Config Demo.gatesYaml).
Proof. split; vm_compute; reflexivity. Qed.

(** ** The scenarios of the specification, executed from the constructor *)

(** No [--config], [--leader-elect=false]: the flag is applied and all
    else is default. *)
Example scenario_flag_only :
  (λ out, (live out.1, out.2)) <$> Demo.start Demo.env ["--leader-elect=false"]
  = Some (<["leaderElect" := "false"]> Demo.defaults, Ok tt).
Proof. vm_compute; reflexivity. Qed.

(** [--config=file.yaml] alone: the file decides. *)
Example scenario_file_only :
  (λ out, (live out.1 !! "leaderElect", out.2)) <$> Demo.start Demo.env ["--config=file.yaml"]
  = Some (Some "false", Ok tt).
Proof. vm_compute; reflexivity. Qed.

(** [--config=file.yaml --leader-elect=true]: the flag decides, the other
    fields are the file's. *)
Example scenario_file_and_flag :
  (λ out, (live out.1, out.2))
    <$> Demo.start Demo.env ["--config=file.yaml"; "--leader-elect=true"]
  = Some (<["leaderElect" := "true"]> (Config Demo.fileYaml), Ok tt).
Proof. vm_compute; reflexivity. Qed.

(** [--config=missing.yaml]: the error names the file and no run loop is
    started. *)
Example scenario_missing_file :
  (λ out, (step <$> trace out.1, out.2)) <$> Demo.start Demo.env ["--config=missing.yaml"]
  = Some ([SCallback; SAbs; SNewLoader; SLoad],
          Err (errorString
            "failed to load config file missing.yaml, error open /work/missing.yaml: no such file or directory")).
Proof. vm_compute; reflexivity. Qed.

(** The defaults cannot be built: there is no command to execute. *)
Example scenario_no_defaults :
  Demo.start Demo.noDefaults ["--config=file.yaml"] = None.
Proof. reflexivity. Qed.

(** * Further properties of [start.go] *)

Section Coverage.
Context {Value Global Loader : Type}.
Variable env : Env Value Global Loader.

Local Abbreviation World := (World Value Global).
Implicit Types (w : World) (fn run : Callback Value Global)
  (allArgs S : list string) (f path : string).

(** The steps of a merge whose file cannot be loaded stop between the
    path resolution and the load. *)
Lemma merge_file_fails_steps allArgs path fn w g1 cause :
  0 < String.length path →
  fn (live w) (active w) = (g1, None) →
  loadFile env path = Err cause →
  ∃ evs n, loadConfigFromFile env allArgs path fn w
           = (Build_World (live w) (flagsConfig w) g1 (trace w ++ evs),
              Err (loadError path cause)) ∧
           2 ≤ n ≤ 4 ∧ step <$> evs = take n mergeSteps.
Proof.
  intros Hlen HA. unfold loadConfigFromFile, DeepCopyInto, loadFile,
    bind, wrapErr, call, lift, emit, setLive, ret.
  rewrite bool_decide_eq_true_2 by done. rewrite HA. simpl.
  destruct (filepath_Abs env path) as [abs|e]; simpl.
  2:{ intros [= ->]. rewrite <- !app_assoc. eexists _, 2. by repeat split; try lia. }
  destruct (NewConfigurationFSLoader env abs) as [loader|e]; simpl.
  2:{ intros [= ->]. rewrite <- !app_assoc. eexists _, 3. by repeat split; try lia. }
  intros ->. simpl. rewrite <- !app_assoc. eexists _, 4. by repeat split; try lia.
Qed.


(** X1. A failure of the phase-A callback ends the merge at once,
    whatever the path: the error is returned as the callback gave it,
    the callback is the only event, and the live object and the
    [--config] target are untouched. *)
Theorem phaseA_failure_stops_merge allArgs path fn w g e :
  fn (live w) (active w) = (g, Some e) →
  loadConfigFromFile env allArgs path fn w
  = (Build_World (live w) (flagsConfig w) g (trace w ++ [EvCallback (live w)]), Err e).
Proof.
  intros HA. unfold loadConfigFromFile, bind, call. by rewrite HA.
Qed.

(** X2. When the file cannot be loaded nothing is overlaid: the live
    object and the [--config] target are the ones of the entry, the
    process-wide state is the one phase A activated, the callback was
    invoked once, and neither the overlay nor the second reading of the
    flags took place. *)
Theorem load_failure_keeps_state allArgs path fn w w' r g1 cause :
  0 < String.length path →
  fn (live w) (active w) = (g1, None) →
  loadFile env path = Err cause →
  loadConfigFromFile env allArgs path fn w = (w', r) →
  r = Err (loadError path cause) ∧
  live w' = live w ∧
  flagsConfig w' = flagsConfig w ∧
  active w' = g1 ∧
  ∃ evs, trace w' = trace w ++ evs ∧
         callbacks (step <$> evs) = 1 ∧
         (SDeepCopyInto ∉ step <$> evs) ∧
         (SFind ∉ step <$> evs) ∧
         (SParseFlags ∉ step <$> evs).
Proof.
  intros Hlen HA Hcause Hrun.
  destruct (merge_file_fails_steps allArgs _ _ _ _ _ Hlen HA Hcause)
    as (evs & n & Heq & [Hlo Hhi] & Hsteps).
  rewrite Heq in Hrun. injection Hrun as <- <-. simpl.
  repeat (split; [done|]). exists evs. split; [done|]. rewrite Hsteps.
  assert (n = 2 ∨ n = 3 ∨ n = 4) as Hn by lia.
  destruct Hn as [Hn|[Hn|Hn]]; subst n;
    (split; [reflexivity|]);
    repeat split; intros Hin%list_elem_of_In; simpl in Hin; intuition discriminate.
Qed.

(** X3. Where the errors of the merge come from.  An error the merge
    returns is the error of the phase-A callback, unchanged; or a load
    error, which carries the cause in its message only ([errors.Unwrap]
    gives nothing); or a re-parse error, which wraps the error of
    [Find] or of the flag parser; or the error of the phase-B callback,
    unchanged, raised on the live object the merge leaves. *)
Theorem merge_error_origin allArgs path fn w w' e :
  loadConfigFromFile env allArgs path fn w = (w', Err e) →
  fn (live w) (active w) = (active w', Some e) ∨
  (∃ cause, loadFile env path = Err cause ∧
            e = loadError path cause ∧ Unwrap e = None) ∨
  (∃ cf c, loadFile env path = Ok cf ∧
           e = Errorf_w "failed to re-parse flags: " c ∧ Unwrap e = Some c ∧
           (Find env allArgs = Err c ∨
            ∃ S wp g1, Find env allArgs = Ok S ∧
                       parseArgs env S (overlaid cf w g1) = (wp, Err c))) ∨
  (∃ cf g1, loadFile env path = Ok cf ∧
            fn (live w) (active w) = (g1, None) ∧
            fn (live w') g1 = (active w', Some e)).
Proof.
  unfold loadConfigFromFile, DeepCopyInto, ParseFlags, loadFile, overlaid,
    bind, wrapErr, call, lift, emit, setLive, ret.
  destruct (fn (live w) (active w)) as [g1 [e0|]] eqn:HA; simpl.
  { intros [= <- <-]. by left. }
  case_bool_decide; [|done]. simpl.
  destruct (filepath_Abs env path) as [abs|e0]; simpl.
  2:{ intros [= <- <-]. right; left. by exists e0. }
  destruct (NewConfigurationFSLoader env abs) as [loader|e0]; simpl.
  2:{ intros [= <- <-]. right; left. by exists e0. }
  destruct (Load env loader (controllerconfigfile_New env)) as [cf|e0]; simpl.
  2:{ intros [= <- <-]. right; left. by exists e0. }
  destruct (Find env allArgs) as [S|c]; simpl.
  2:{ intros [= <- <-]. right; right; left. exists cf, c. repeat split; by left. }
  match goal with |- context [parseArgs env S ?w0] => set (w5 := w0) end.
  destruct (parseArgs env S w5) as [wp rp] eqn:Hparse.
  pose proof (parseArgs_frame _ _ _ _ _ Hparse) as [Hact _].
  apply (parseArgs_indep _ _ _ _ _ g1 []) in Hparse. simpl in Hparse, Hact.
  destruct rp as [[]|c]; simpl.
  2:{ intros [= <- <-]. right; right; left. exists cf, c.
      repeat split; try done. right. by eexists S, _, g1. }
  rewrite Hact.
  destruct (fn (live wp) g1) as [g2 [e2|]] eqn:HB; simpl; [|done].
  intros [= <- <-]. right; right; right. by exists cf, g1.
Qed.

(** X4. The callback of the action.  It succeeds exactly when the
    logging options and then the feature gates are applied, the gates on
    the state the logging left.  When it fails, either the logging
    options were refused and the feature gates were not consulted, or
    the feature gates were refused after the logging options were
    applied; the error wraps the cause under a message that tells the
    two apart. *)
Theorem validationCallback_cases (c : gmap string Value) (g g' : Global) (r : option error) :
  validationCallback env c g = (g', r) →
  match r with
  | None =>
      ∃ g1, ValidateAndApply env c g = (g1, None) ∧ SetFromMap env c g1 = (g', None)
  | Some e =>
      (∃ err, ValidateAndApply env c g = (g', Some err) ∧
              e = Errorf_w "failed to validate controller logging flags: " err ∧
              Unwrap e = Some err) ∨
      (∃ g1 err, ValidateAndApply env c g = (g1, None) ∧
                 SetFromMap env c g1 = (g', Some err) ∧
                 e = Errorf_w
                       "failed to set feature gates from initial flags-based config: " err ∧
                 Unwrap e = Some err)
  end.
Proof.
  unfold validationCallback.
  destruct (ValidateAndApply env c g) as [g1 [err|]].
  { intros [= <- <-]. left. by exists err. }
  destruct (SetFromMap env c g1) as [g2 [err|]] eqn:HS; intros [= <- <-].
  - right. by exists g1, err.
  - by exists g1.
Qed.

(** X5. What is active after a merge is what the callback made of the
    resolved configuration: the last call of the callback was on the
    live object the merge returns, from the entry state when no file is
    named and from the state phase A left when one is. *)
Theorem resolved_config_is_the_active_one allArgs path fn w w' :
  loadConfigFromFile env allArgs path fn w = (w', Ok tt) →
  ∃ g, fn (live w') g = (active w', None) ∧
       (if bool_decide (0 < String.length path)
        then fn (live w) (active w) = (g, None)
        else g = active w).
Proof.
  intros Hrun. case_bool_decide as Hlen.
  - apply merge_file_success in Hrun as (g1&abs&cf&S&wp&g2&HA&_&_&_&_&HB&->);
      [|done].
    by exists g1.
  - rewrite merge_no_file in Hrun by lia. unfold call in Hrun.
    destruct (fn (live w) (active w)) as [g [e|]] eqn:HA; [done|].
    injection Hrun as <-. by exists (active w).
Qed.

(** X6. The configuration a merge with a file resolves does not depend
    on the state it starts from: two successful merges of the same path
    and arguments end with the same live object, whatever the live
    object, the [--config] target and the process-wide state were. *)
Theorem resolved_config_ignores_entry_state allArgs path fn w1 w2 w1' w2' :
  0 < String.length path →
  loadConfigFromFile env allArgs path fn w1 = (w1', Ok tt) →
  loadConfigFromFile env allArgs path fn w2 = (w2', Ok tt) →
  live w1' = live w2'.
Proof.
  intros Hlen H1 H2.
  pose proof H1 as H1'.
  apply merge_file_success in H1' as (_&_&cf&S&_&_&_&_&Hcf&HS&_); [|done].
  apply map_eq. intros f.
  rewrite (merge_lookup _ _ _ _ _ _ _ _ f Hlen Hcf HS H1).
  by rewrite (merge_lookup _ _ _ _ _ _ _ _ f Hlen Hcf HS H2).
Qed.



(** X8. Without [--config] the action changes nothing: the live object
    and the [--config] target are the ones it was called with, whether
    validation and the run loop succeed or not, and a run loop that is
    entered is entered on that live object. *)
Theorem action_without_file_keeps_config run allArgs w w' r :
  String.length (flagsConfig w) = 0 →
  RunE env run allArgs w = (w', r) →
  live w' = live w ∧
  flagsConfig w' = flagsConfig w ∧
  ∀ evs c, trace w' = trace w ++ evs → EvRun c ∈ evs → c = live w.
Proof.
  intros Hlen. unfold RunE, bind, callRun.
  rewrite merge_no_file by done. unfold call.
  destruct (validationCallback env (live w) (active w)) as [g [e|]]; simpl.
  { intros [= <- <-]. simpl. repeat split.
    intros evs c <-%app_inv_head Hin.
    apply list_elem_of_singleton in Hin. discriminate. }
  destruct (run (live w) g) as [g' [e|]]; intros [= <- <-]; simpl; repeat split;
    intros evs c Htr Hin; rewrite <- app_assoc in Htr;
    apply app_inv_head in Htr as <-;
    apply elem_of_cons in Hin as [Hin|Hin]; try discriminate;
    apply list_elem_of_singleton in Hin; by injection Hin.
Qed.


(** X10. The merge keeps to its steps: what a run does is an initial
    part of [mergeSteps], in that order, so every step but the callback
    happens at most once, the overlay only after the load, and the merge
    itself never logs, never ends the process and never touches the flag
    registration. *)
Theorem merge_keeps_to_its_steps allArgs path fn w w' r :
  loadConfigFromFile env allArgs path fn w = (w', r) →
  ∃ evs, trace w' = trace w ++ evs ∧
         (step <$> evs) `prefix_of` mergeSteps ∧
         (∀ s, s ∈ step <$> evs →
               s ∉ [SRun; SLogError; SNewFlags; SAddFlags; SAddConfigFlags; SSetArgs; SExit]).
Proof.
  intros Hrun.
  destruct (merge_steps _ _ _ _ _ _ _ Hrun) as (evs & n & Htr & _ & Hsteps & _).
  exists evs. split; [done|]. rewrite Hsteps. split.
  - apply prefix_take.
  - intros s Hin%(subseteq_take n mergeSteps) Hbad.
    apply list_elem_of_In in Hin, Hbad. simpl in Hin, Hbad.
    intuition (subst; discriminate).
Qed.

(** X11. A command fresh from the constructor runs on the defaults.
    When the defaults are built and the [--config] target starts empty,
    the constructor returns a command for the arguments it was given,
    and its action, called before any flag is parsed, leaves the
    defaults as the live object and enters the run loop on nothing
    else. *)
Theorem fresh_command_runs_on_defaults run allArgs cfg g :
  NewControllerConfiguration env = Ok cfg →
  NewControllerFlags env = "" →
  ∃ evs cmd,
    newServerCommand env run allArgs = (evs, Returns _ cmd) ∧
    args cmd = allArgs ∧
    step <$> evs = [SNewFlags; SAddFlags; SAddConfigFlags; SSetArgs] ∧
    ∀ w' r, action cmd (initial cmd g) = (w', r) →
            live w' = cfg ∧
            ∀ c, EvRun c ∈ trace w' → c = cfg.
Proof.
  intros Hcfg Hflags. unfold newServerCommand. rewrite Hcfg. eexists _, _.
  split; [reflexivity|]. split; [done|]. split; [done|].
  unfold initial. simpl. rewrite Hflags. intros w' r.
  unfold RunE, bind, callRun. simpl.
  rewrite merge_no_file by done. unfold call. simpl.
  destruct (validationCallback env cfg g) as [g1 [e|]]; simpl.
  { intros [= <- <-]. simpl. split; [done|]. intros c Hin.
    apply list_elem_of_singleton in Hin. discriminate. }
  destruct (run cfg g1) as [g' [e|]]; intros [= <- <-]; simpl; (split; [done|]);
    intros c Hin; apply elem_of_cons in Hin as [Hin|Hin]; try discriminate;
    apply list_elem_of_singleton in Hin; by injection Hin.
Qed.

End Coverage.

(** ** The further properties at work on the small controller *)

Lemma phaseA_failure_stops_merge_witness :
  Demo.merge Demo.env Demo.gateFlag "file.yaml"
  = (Build_World (live (Demo.afterPhase1 Demo.gateFlag))
       (flagsConfig (Demo.afterPhase1 Demo.gateFlag))
       (Some "true", None)
       (trace (Demo.afterPhase1 Demo.gateFlag)
        ++ [EvCallback (live (Demo.afterPhase1 Demo.gateFlag))]),
     Err (Errorf_w "failed to set feature gates from initial flags-based config: "
            (errorString "unrecognized feature gate: NoSuchGate"))).
Proof.
  apply (phaseA_failure_stops_merge Demo.env Demo.gateFlag "file.yaml" Demo.callback
           (Demo.afterPhase1 Demo.gateFlag)).
  vm_compute; reflexivity.
Defined.

Lemma load_failure_keeps_state_witness :
  live (Demo.merge Demo.env Demo.missingFile "missing.yaml").1
  = live (Demo.afterPhase1 Demo.missingFile) ∧
  active (Demo.merge Demo.env Demo.missingFile "missing.yaml").1 = (Some "true", Some "").
Proof.
  destruct (load_failure_keeps_state Demo.env Demo.missingFile "missing.yaml"
              Demo.callback (Demo.afterPhase1 Demo.missingFile)
              (Demo.merge Demo.env Demo.missingFile "missing.yaml").1
              (Demo.merge Demo.env Demo.missingFile "missing.yaml").2
              (Some "true", Some "") (Demo.noSuchFile "/work/missing.yaml"))
    as (_ & Hlive & _ & Hactive & _).
  - simpl; lia.
  - vm_compute; reflexivity.
  - vm_compute; reflexivity.
  - vm_compute; reflexivity.
  - split; [exact Hlive|exact Hactive].
Defined.

Lemma merge_error_origin_witness :
  ∃ c, Unwrap (Errorf_w "failed to re-parse flags: " (errorString "unknown command"))
       = Some c ∧
       Find Demo.lostRoot Demo.fileAndFlag = Err c.
Proof.
  destruct (merge_error_origin Demo.lostRoot Demo.fileAndFlag "file.yaml"
              Demo.callback (Demo.afterPhase1 Demo.fileAndFlag)
              (Demo.merge Demo.lostRoot Demo.fileAndFlag "file.yaml").1
              (Errorf_w "failed to re-parse flags: " (errorString "unknown command")))
    as [HA | [(cause & Hload & _) | [(cf & c & _ & _ & Hun & Hfind) | (cf & g1 & _ & _ & HB)]]].
  - vm_compute; reflexivity.
  - vm_compute in HA. discriminate HA.
  - vm_compute in Hload. discriminate Hload.
  - exists c. split; [exact Hun|].
    destruct Hfind as [Hfind | (S & wp & g1 & Hfind & _)];
      [exact Hfind | discriminate Hfind].
  - vm_compute in HB. discriminate HB.
Defined.

Lemma validationCallback_cases_witness :
  (∃ err,
     ValidateAndApply Demo.env (live (Demo.afterPhase1 Demo.gateFlag)) Demo.cold
     = ((Some "true", None), Some err) ∧
     Errorf_w "failed to set feature gates from initial flags-based config: "
       (errorString "unrecognized feature gate: NoSuchGate")
     = Errorf_w "failed to validate controller logging flags: " err ∧
     Unwrap (Errorf_w "failed to set feature gates from initial flags-based config: "
               (errorString "unrecognized feature gate: NoSuchGate")) = Some err) ∨
  (∃ g1 err,
     ValidateAndApply Demo.env (live (Demo.afterPhase1 Demo.gateFlag)) Demo.cold
     = (g1, None) ∧
     SetFromMap Demo.env (live (Demo.afterPhase1 Demo.gateFlag)) g1
     = ((Some "true", None), Some err) ∧
     Errorf_w "failed to set feature gates from initial flags-based config: "
       (errorString "unrecognized feature gate: NoSuchGate")
     = Errorf_w "failed to set feature gates from initial flags-based config: " err ∧
     Unwrap (Errorf_w "failed to set feature gates from initial flags-based config: "
               (errorString "unrecognized feature gate: NoSuchGate")) = Some err).
Proof.
  apply (validationCallback_cases Demo.env (live (Demo.afterPhase1 Demo.gateFlag))
           Demo.cold (Some "true", None)
           (Some (Errorf_w "failed to set feature gates from initial flags-based config: "
                    (errorString "unrecognized feature gate: NoSuchGate")))).
  vm_compute; reflexivity.
Defined.

Lemma resolved_config_is_the_active_one_witness :
  ∃ g,
    Demo.callback (live (Demo.merge Demo.env Demo.fileAndFlag "file.yaml").1) g
    = (active (Demo.merge Demo.env Demo.fileAndFlag "file.yaml").1, None) ∧
    Demo.callback (live (Demo.afterPhase1 Demo.fileAndFlag))
      (active (Demo.afterPhase1 Demo.fileAndFlag)) = (g, None).
Proof.
  destruct (resolved_config_is_the_active_one Demo.env Demo.fileAndFlag "file.yaml"
              Demo.callback (Demo.afterPhase1 Demo.fileAndFlag)
              (Demo.merge Demo.env Demo.fileAndFlag "file.yaml").1)
    as (g & Hlast & Hfirst).
  - vm_compute; reflexivity.
  - exists g. split; [exact Hlast|exact Hfirst].
Defined.

Lemma resolved_config_ignores_entry_state_witness :
  live (Demo.merge Demo.env Demo.fileAndFlag "file.yaml").1
  = live (loadConfigFromFile Demo.env Demo.fileAndFlag "file.yaml" Demo.callback
            (Build_World ∅ "" Demo.cold [])).1.
Proof.
  apply (resolved_config_ignores_entry_state Demo.env Demo.fileAndFlag "file.yaml"
           Demo.callback (Demo.afterPhase1 Demo.fileAndFlag)
           (Build_World ∅ "" Demo.cold [])).
  - simpl; lia.
  - vm_compute; reflexivity.
  - vm_compute; reflexivity.
Defined.


Lemma action_without_file_keeps_config_witness :
  live (RunE Demo.env (Run Demo.env) Demo.flagOnly (Demo.afterPhase1 Demo.flagOnly)).1
  = live (Demo.afterPhase1 Demo.flagOnly).
Proof.
  destruct (action_without_file_keeps_config Demo.env (Run Demo.env) Demo.flagOnly
              (Demo.afterPhase1 Demo.flagOnly)
              (RunE Demo.env (Run Demo.env) Demo.flagOnly (Demo.afterPhase1 Demo.flagOnly)).1
              (Ok tt))
    as (Hlive & _).
  - reflexivity.
  - vm_compute; reflexivity.
  - exact Hlive.
Defined.


Lemma merge_keeps_to_its_steps_witness :
  ∃ evs,
    trace (Demo.merge Demo.env Demo.unknownFlag "file.yaml").1
    = trace (Demo.afterPhase1 Demo.unknownFlag) ++ evs ∧
    (step <$> evs) `prefix_of` mergeSteps ∧
    (∀ s, s ∈ step <$> evs →
          s ∉ [SRun; SLogError; SNewFlags; SAddFlags; SAddConfigFlags; SSetArgs; SExit]).
Proof.
  apply (merge_keeps_to_its_steps Demo.env Demo.unknownFlag "file.yaml" Demo.callback
           (Demo.afterPhase1 Demo.unknownFlag) _
           (Demo.merge Demo.env Demo.unknownFlag "file.yaml").2).
  vm_compute; reflexivity.
Defined.

Lemma fresh_command_runs_on_defaults_witness :
  ∃ evs cmd,
    newServerCommand Demo.env (Run Demo.env) Demo.flagOnly = (evs, Returns _ cmd) ∧
    args cmd = Demo.flagOnly ∧
    step <$> evs = [SNewFlags; SAddFlags; SAddConfigFlags; SSetArgs] ∧
    ∀ w' r, action cmd (initial cmd Demo.cold) = (w', r) →
            live w' = Demo.defaults ∧
            ∀ c, EvRun c ∈ trace w' → c = Demo.defaults.
Proof.
  apply (fresh_command_runs_on_defaults Demo.env (Run Demo.env) Demo.flagOnly
           Demo.defaults Demo.cold); reflexivity.
Defined.
